(** * LinBox/LELA [linbox/matrix/transpose.h]: the transposed matrix view

    [TransposeMatrix<Matrix, Trait>] holds a reference [_A] to a matrix and
    forwards every member to it with the roles of rows and columns
    exchanged.  The class template has a primary body and three
    specialisations, chosen by the iterator category [Trait] of the wrapped
    matrix type.

    The embedding keeps the wrapped matrices in a store indexed by
    locations, so that a view (and every copy of it) is a reference and not
    a value; members are computations in a state-and-error monad over that
    store. *)

From stdpp Require Import base option list gmap.

Set Default Proof Using "Type".

(** ** Matrix categories *)

(** The tags of [MatrixCategories].  [GenericTag] stands for every category
    for which [TransposeMatrix] has no specialisation, i.e. the one served by
    the primary template. *)
Module MatrixCategories.
Inductive MatrixCategory : Set :=
  | GenericTag
  | RowColMatrixTag
  | RowMatrixTag
  | ColMatrixTag.

#[global] Instance MatrixCategory_eq_dec : EqDecision MatrixCategory.
Proof. solve_decision. Defined.
End MatrixCategories.
Export MatrixCategories.

(** The second template parameter of [TransposeMatrix]. *)
Abbreviation Trait := MatrixCategory (only parsing).

(** ** Iterators

    An iterator is a cursor into the sequence it traverses; [xBegin ()] is
    the cursor at position 0 and [xEnd ()] the one past the last element. *)
Record Iterator (T : Type) : Type := MkIterator {
  it_seq : list T;
  it_pos : nat
}.
Arguments MkIterator {T} _ _.
Arguments it_seq {T} _.
Arguments it_pos {T} _.

Definition begin_of {T} (l : list T) : Iterator T := MkIterator l 0.
Definition end_of {T} (l : list T) : Iterator T := MkIterator l (length l).

(** [for (i = first; i != last; ++i) yield *i]. *)
Definition range {T} (first last : Iterator T) : list T :=
  take (it_pos last - it_pos first) (drop (it_pos first) (it_seq first)).

(** What a raw indexed iterator shows at one position: [rowIndex ()],
    [colIndex ()] and the entry. *)
Record IndexedEntry (Element : Type) : Type := MkIndexedEntry {
  rowIndex : nat;
  colIndex : nat;
  entry : Element
}.
Arguments MkIndexedEntry {Element} _ _ _.
Arguments rowIndex {Element} _.
Arguments colIndex {Element} _.
Arguments entry {Element} _.

(** ** The matrix archetype

    What [TransposeMatrix] asks of its template argument [Matrix].  A
    mutating member returns the matrix after the call; [getEntry] returns
    its [bool] together with the content of the reference argument [x]
    after the call. *)
Module Matrix.
Class Archetype (Element Row Col Matrix : Type) : Type := {
  rowdim : Matrix → nat;
  coldim : Matrix → nat;
  setEntry : Matrix → nat → nat → Element → Matrix;
  eraseEntry : Matrix → nat → nat → Matrix;
  getEntry : Matrix → Element → nat → nat → bool * Element;
  rowBegin : Matrix → Iterator Row;
  rowEnd : Matrix → Iterator Row;
  colBegin : Matrix → Iterator Col;
  colEnd : Matrix → Iterator Col;
  rawBegin : Matrix → Iterator Element;
  rawEnd : Matrix → Iterator Element;
  rawIndexedBegin : Matrix → Iterator (IndexedEntry Element);
  rawIndexedEnd : Matrix → Iterator (IndexedEntry Element)
}.

(** Whether [setEntry] of [Matrix] is a const member, that is, whether it
    can be called through a [const Matrix &]. *)
Class Qualifiers (Matrix : Type) : Set := {
  setEntry_const : bool
}.
End Matrix.

(** ** Members and the state-and-error monad *)

Inductive member : Set :=
| m_rowdim | m_coldim
| m_setEntry | m_eraseEntry | m_getEntry
| m_rowBegin | m_rowEnd
| m_colBegin | m_colEnd
| m_rawBegin | m_rawEnd
| m_rawIndexedBegin | m_rawIndexedEnd.

#[global] Instance member_eq_dec : EqDecision member.
Proof. solve_decision. Defined.

Inductive error : Set :=
| NoSuchMember (m : member)   (* the class has no such member: rejected by the compiler *)
| DanglingReference           (* [_A] refers to no live matrix *)
| NoSuchType.                 (* a typedef names a type [Matrix] has not: rejected by the compiler *)

Definition loc := nat.

Definition Op (Matrix A : Type) : Type := gmap loc Matrix → error + A * gmap loc Matrix.

Definition ret {Matrix A} (a : A) : Op Matrix A := λ s, inr (a, s).
Definition fail {Matrix A} (e : error) : Op Matrix A := λ _, inl e.
Definition bind {Matrix A B} (c : Op Matrix A) (k : A → Op Matrix B) : Op Matrix B :=
  λ s, match c s with
       | inl e => inl e
       | inr (a, s') => k a s'
       end.

Declare Scope op_scope.
Delimit Scope op_scope with op.
Notation "x <- c ;; k" := (bind c (λ x, k))
  (at level 90, c at next level, right associativity) : op_scope.

(** ** The class template *)

Record TransposeMatrix : Set := MkTransposeMatrix {
  trait : Trait;   (* which of the four class bodies this object has *)
  _A : loc         (* [Matrix &_A] *)
}.

(** The members each class body has. *)
Definition declares (t : Trait) (m : member) : bool :=
  match t with
  | GenericTag => true   (* primary template *)
  | RowColMatrixTag =>
      match m with
      | m_eraseEntry => false
      | _ => true
      end
  | RowMatrixTag =>
      match m with
      | m_eraseEntry | m_rowBegin | m_rowEnd => false
      | _ => true
      end
  | ColMatrixTag =>
      match m with
      | m_eraseEntry | m_colBegin | m_colEnd => false
      | _ => true
      end
  end.

(** The members every class body has. *)
Definition shared (m : member) : bool :=
  match m with
  | m_eraseEntry | m_rowBegin | m_rowEnd | m_colBegin | m_colEnd => false
  | _ => true
  end.

(** The typedef [MatrixCategory] of each class body. *)
Definition MatrixCategory_of (t : Trait) : option MatrixCategory :=
  match t with
  | GenericTag => None
  | RowColMatrixTag => Some RowColMatrixTag
  | RowMatrixTag => Some ColMatrixTag
  | ColMatrixTag => Some RowMatrixTag
  end.

(** The member of [_A] that the body of each member calls. *)
Definition forwards_to (m : member) : member :=
  match m with
  | m_rowdim => m_coldim
  | m_coldim => m_rowdim
  | m_setEntry => m_setEntry
  | m_eraseEntry => m_eraseEntry
  | m_getEntry => m_getEntry
  | m_rowBegin => m_colBegin
  | m_rowEnd => m_colEnd
  | m_colBegin => m_rowBegin
  | m_colEnd => m_rowEnd
  | m_rawBegin => m_rawBegin
  | m_rawEnd => m_rawEnd
  | m_rawIndexedBegin => m_rawIndexedBegin
  | m_rawIndexedEnd => m_rawIndexedEnd
  end.

(** The members of the wrapped matrix each class body is written for: the
    primary template takes a matrix with the whole archetype, and the
    specialisations are for matrices "that have both row and column
    iterators", "that have only row iterators" and "that have only column
    iterators". *)
Definition wrapped_has (t : Trait) (m : member) : bool :=
  match t with
  | GenericTag | RowColMatrixTag => true
  | RowMatrixTag =>
      match m with
      | m_colBegin | m_colEnd => false
      | _ => true
      end
  | ColMatrixTag =>
      match m with
      | m_rowBegin | m_rowEnd => false
      | _ => true
      end
  end.

(** The body for column-only matrices holds [const Matrix &_A], the three
    others [Matrix &_A]. *)
Definition const_ref (t : Trait) : bool :=
  match t with
  | ColMatrixTag => true
  | _ => false
  end.

Section TransposeMatrix.
Context {Element Row Col Matrix : Type}.
Context `{!Matrix.Archetype Element Row Col Matrix}.
Context `{!Matrix.Qualifiers Matrix}.

Local Open Scope op_scope.

(** Entering a member [m] of the view: the class body must have it and
    [_A] must be live. *)
Definition deref (V : TransposeMatrix) (m : member) : Op Matrix Matrix :=
  λ s, if declares (trait V) m
       then match s !! _A V with
            | Some A => ret A s
            | None => fail DanglingReference s
            end
       else fail (NoSuchMember m) s.

(** A mutating member of [_A] has run and left [A'] behind. *)
Definition assign (V : TransposeMatrix) (A' : Matrix) : Op Matrix unit :=
  λ s, inr ((), <[_A V := A']> s).

(** [TransposeMatrix (Matrix &A) : _A (A) {}] *)
Definition construct (t : Trait) (A : loc) : TransposeMatrix :=
  MkTransposeMatrix t A.

(** [TransposeMatrix (const TransposeMatrix &M) : _A (M._A) {}] *)
Definition copy (M : TransposeMatrix) : TransposeMatrix :=
  MkTransposeMatrix (trait M) (_A M).

(** [{ return _A.coldim (); }] *)
Definition rowdim (V : TransposeMatrix) : Op Matrix nat :=
  A <- deref V m_rowdim ;; ret (Matrix.coldim A).

(** [{ return _A.rowdim (); }] *)
Definition coldim (V : TransposeMatrix) : Op Matrix nat :=
  A <- deref V m_coldim ;; ret (Matrix.rowdim A).

(** Whether the call [_A.setEntry (j, i, a_ij)] in the body of [setEntry]
    is accepted: through [Matrix &_A] always, through [const Matrix &_A]
    only for a const [setEntry]. *)
Definition setEntry_accepted (t : Trait) : bool :=
  negb (const_ref t) || Matrix.setEntry_const.

(** [{ _A.setEntry (j, i, a_ij); }] *)
Definition setEntry (V : TransposeMatrix) (i j : nat) (a_ij : Element) : Op Matrix unit :=
  if setEntry_accepted (trait V)
  then A <- deref V m_setEntry ;; assign V (Matrix.setEntry A j i a_ij)
  else fail (NoSuchMember m_setEntry).

(** [{ _A.eraseEntry (j, i); }] *)
Definition eraseEntry (V : TransposeMatrix) (i j : nat) : Op Matrix unit :=
  A <- deref V m_eraseEntry ;; assign V (Matrix.eraseEntry A j i).

(** [{ return _A.getEntry (x, j, i); }] *)
Definition getEntry (V : TransposeMatrix) (x : Element) (i j : nat) : Op Matrix (bool * Element) :=
  A <- deref V m_getEntry ;; ret (Matrix.getEntry A x j i).

(** [{ return _A.colBegin (); }] and [{ return _A.colEnd (); }] *)
Definition rowBegin (V : TransposeMatrix) : Op Matrix (Iterator Col) :=
  A <- deref V m_rowBegin ;; ret (Matrix.colBegin A).
Definition rowEnd (V : TransposeMatrix) : Op Matrix (Iterator Col) :=
  A <- deref V m_rowEnd ;; ret (Matrix.colEnd A).

(** [{ return _A.rowBegin (); }] and [{ return _A.rowEnd (); }] *)
Definition colBegin (V : TransposeMatrix) : Op Matrix (Iterator Row) :=
  A <- deref V m_colBegin ;; ret (Matrix.rowBegin A).
Definition colEnd (V : TransposeMatrix) : Op Matrix (Iterator Row) :=
  A <- deref V m_colEnd ;; ret (Matrix.rowEnd A).

(** [{ return _A.rawBegin (); }] and [{ return _A.rawEnd (); }] *)
Definition rawBegin (V : TransposeMatrix) : Op Matrix (Iterator Element) :=
  A <- deref V m_rawBegin ;; ret (Matrix.rawBegin A).
Definition rawEnd (V : TransposeMatrix) : Op Matrix (Iterator Element) :=
  A <- deref V m_rawEnd ;; ret (Matrix.rawEnd A).

(** [{ return _A.rawIndexedBegin (); }] and [{ return _A.rawIndexedEnd (); }] *)
Definition rawIndexedBegin (V : TransposeMatrix) : Op Matrix (Iterator (IndexedEntry Element)) :=
  A <- deref V m_rawIndexedBegin ;; ret (Matrix.rawIndexedBegin A).
Definition rawIndexedEnd (V : TransposeMatrix) : Op Matrix (Iterator (IndexedEntry Element)) :=
  A <- deref V m_rawIndexedEnd ;; ret (Matrix.rawIndexedEnd A).

(** Traversals [for (i = xBegin (); i != xEnd (); ++i)]. *)
Definition rows (V : TransposeMatrix) : Op Matrix (list Col) :=
  b <- rowBegin V ;; e <- rowEnd V ;; ret (range b e).
Definition cols (V : TransposeMatrix) : Op Matrix (list Row) :=
  b <- colBegin V ;; e <- colEnd V ;; ret (range b e).
Definition rawIndexed (V : TransposeMatrix) : Op Matrix (list (IndexedEntry Element)) :=
  b <- rawIndexedBegin V ;; e <- rawIndexedEnd V ;; ret (range b e).

(** The calls through which a program changes a matrix by way of a view. *)
Inductive mutation : Type :=
| CallSetEntry (V : TransposeMatrix) (i j : nat) (a_ij : Element)
| CallEraseEntry (V : TransposeMatrix) (i j : nat).

Definition perform (c : mutation) : Op Matrix unit :=
  match c with
  | CallSetEntry V i j a_ij => setEntry V i j a_ij
  | CallEraseEntry V i j => eraseEntry V i j
  end.

Fixpoint perform_all (cs : list mutation) : Op Matrix unit :=
  match cs with
  | [] => ret ()
  | c :: cs' => _ <- perform c ;; perform_all cs'
  end.

(** *** What the view's documentation expects of the wrapped matrix

    The view adds nothing to these: it inherits them from [Matrix]. *)

(** An entry that was set at a valid position is there. *)
Definition set_then_get : Prop :=
  ∀ (A : Matrix) (i j : nat) (v x : Element),
    i < Matrix.rowdim A → j < Matrix.coldim A →
    Matrix.getEntry (Matrix.setEntry A i j v) x i j = (true, v).

(** "If the entry does not exist in the matrix, x is left unchanged and
    false is returned." *)
Definition absent_leaves_x : Prop :=
  ∀ (A : Matrix) (x : Element) (i j : nat),
    (Matrix.getEntry A x i j).1 = false → (Matrix.getEntry A x i j).2 = x.

(** The raw indexed iterator shows, with each entry, the position at which
    [getEntry] finds it. *)
Definition indexed_positions : Prop :=
  ∀ (A : Matrix) (e : IndexedEntry Element) (x : Element),
    e ∈ range (Matrix.rawIndexedBegin A) (Matrix.rawIndexedEnd A) →
    Matrix.getEntry A x (rowIndex e) (colIndex e) = (true, entry e).
End TransposeMatrix.

Arguments mutation : clear implicits.
Arguments set_then_get {_ _ _} Matrix {_}.
Arguments absent_leaves_x {_ _ _} Matrix {_}.
Arguments indexed_positions {_ _ _} Matrix {_}.

(** ** Variant selection *)

(** Modelled from the spec: the classification of matrix types into
    categories ([MatrixTraits] and [MatrixIteratorTypes] of
    linbox/matrix/traits.h, which the default argument of [Trait] uses) is not
    part of this unit.  A type whose class declares a category has that
    category; a type that declares none is unspecified.  The class body
    chosen for a category is the specialisation for it, and the primary
    template for the unspecified one. *)
Definition category_of_declared (d : option MatrixCategory) : MatrixCategory :=
  default GenericTag d.

Definition select_variant (c : MatrixCategory) : Trait := c.

(** The category of [TransposeMatrix<Matrix>] for a [Matrix] of category [c]. *)
Definition view_category (c : MatrixCategory) : MatrixCategory :=
  category_of_declared (MatrixCategory_of (select_variant c)).

(** ** Two wrapped matrices *)

(** Modelled from the spec: the sparse matrix representation is outside this
    unit.  A sparse matrix stores only explicit entries; setting an entry
    stores it, erasing removes a stored entry if present, reading an absent
    entry returns false and leaves [x] alone.  Rows and columns are sparse
    vectors of (index, entry) pairs in ascending order of the index. *)
Record SparseMatrix (Element : Type) : Type := MkSparseMatrix {
  s_rowdim : nat;
  s_coldim : nat;
  s_rep : gmap (nat * nat) Element
}.
Arguments MkSparseMatrix {Element} _ _ _.
Arguments s_rowdim {Element} _.
Arguments s_coldim {Element} _.
Arguments s_rep {Element} _.

Section SparseMatrix.
Context {Element : Type}.

Definition s_row (A : SparseMatrix Element) (i : nat) : list (nat * Element) :=
  omap (λ j, (λ v, (j, v)) <$> s_rep A !! (i, j)) (seq 0 (s_coldim A)).

Definition s_col (A : SparseMatrix Element) (j : nat) : list (nat * Element) :=
  omap (λ i, (λ v, (i, v)) <$> s_rep A !! (i, j)) (seq 0 (s_rowdim A)).

Definition s_rows (A : SparseMatrix Element) : list (list (nat * Element)) :=
  s_row A <$> seq 0 (s_rowdim A).

Definition s_cols (A : SparseMatrix Element) : list (list (nat * Element)) :=
  s_col A <$> seq 0 (s_coldim A).

Definition s_indexed (A : SparseMatrix Element) : list (IndexedEntry Element) :=
  (λ p, MkIndexedEntry p.1.1 p.1.2 p.2) <$> map_to_list (s_rep A).

#[global] Instance SparseMatrix_archetype :
  Matrix.Archetype Element (list (nat * Element)) (list (nat * Element))
                   (SparseMatrix Element) := {|
  Matrix.rowdim := s_rowdim;
  Matrix.coldim := s_coldim;
  Matrix.setEntry A i j v :=
    MkSparseMatrix (s_rowdim A) (s_coldim A) (<[(i, j) := v]> (s_rep A));
  Matrix.eraseEntry A i j :=
    MkSparseMatrix (s_rowdim A) (s_coldim A) (delete (i, j) (s_rep A));
  Matrix.getEntry A x i j :=
    match s_rep A !! (i, j) with
    | Some v => (true, v)
    | None => (false, x)
    end;
  Matrix.rowBegin A := begin_of (s_rows A);
  Matrix.rowEnd A := end_of (s_rows A);
  Matrix.colBegin A := begin_of (s_cols A);
  Matrix.colEnd A := end_of (s_cols A);
  Matrix.rawBegin A := begin_of (entry <$> s_indexed A);
  Matrix.rawEnd A := end_of (entry <$> s_indexed A);
  Matrix.rawIndexedBegin A := begin_of (s_indexed A);
  Matrix.rawIndexedEnd A := end_of (s_indexed A)
|}.

(** The matrix owns its entries: [setEntry] changes the object and is not a
    const member. *)
#[global] Instance SparseMatrix_qualifiers : Matrix.Qualifiers (SparseMatrix Element) := {|
  Matrix.setEntry_const := false
|}.
End SparseMatrix.

(** Modelled from the spec: the dense matrix representation is outside this
    unit.  A dense matrix stores an explicit value for every position;
    reading always returns true, and erasing is a no-op. *)
Record DenseMatrix (Element : Type) : Type := MkDenseMatrix {
  d_rowdim : nat;
  d_coldim : nat;
  d_rep : nat → nat → Element
}.
Arguments MkDenseMatrix {Element} _ _ _.
Arguments d_rowdim {Element} _.
Arguments d_coldim {Element} _.
Arguments d_rep {Element} _.

Section DenseMatrix.
Context {Element : Type}.

Definition d_rows (A : DenseMatrix Element) : list (list Element) :=
  (λ i, d_rep A i <$> seq 0 (d_coldim A)) <$> seq 0 (d_rowdim A).

Definition d_cols (A : DenseMatrix Element) : list (list Element) :=
  (λ j, (λ i, d_rep A i j) <$> seq 0 (d_rowdim A)) <$> seq 0 (d_coldim A).

Definition d_indexed (A : DenseMatrix Element) : list (IndexedEntry Element) :=
  i ← seq 0 (d_rowdim A);
  (λ j, MkIndexedEntry i j (d_rep A i j)) <$> seq 0 (d_coldim A).

#[global] Instance DenseMatrix_archetype :
  Matrix.Archetype Element (list Element) (list Element) (DenseMatrix Element) := {|
  Matrix.rowdim := d_rowdim;
  Matrix.coldim := d_coldim;
  Matrix.setEntry A i j v :=
    MkDenseMatrix (d_rowdim A) (d_coldim A)
      (λ i' j', if decide (i' = i ∧ j' = j) then v else d_rep A i' j');
  Matrix.eraseEntry A i j := A;
  Matrix.getEntry A x i j := (true, d_rep A i j);
  Matrix.rowBegin A := begin_of (d_rows A);
  Matrix.rowEnd A := end_of (d_rows A);
  Matrix.colBegin A := begin_of (d_cols A);
  Matrix.colEnd A := end_of (d_cols A);
  Matrix.rawBegin A := begin_of (entry <$> d_indexed A);
  Matrix.rawEnd A := end_of (entry <$> d_indexed A);
  Matrix.rawIndexedBegin A := begin_of (d_indexed A);
  Matrix.rawIndexedEnd A := end_of (d_indexed A)
|}.

(** The matrix owns its entries: [setEntry] changes the object and is not a
    const member. *)
#[global] Instance DenseMatrix_qualifiers : Matrix.Qualifiers (DenseMatrix Element) := {|
  Matrix.setEntry_const := false
|}.
End DenseMatrix.

(** ** The scenario of the documentation

    A sparse matrix with 2 rows and 3 columns holding (0,0) = 1 and
    (1,2) = 5, at location 0 of the store, and a dense matrix
    [[1 2 3] [4 5 6]] at location 1. *)
Definition sparse23 : SparseMatrix Z :=
  MkSparseMatrix 2 3 (<[(0, 0) := 1%Z]> (<[(1, 2) := 5%Z]> ∅)).

Definition dense23 : DenseMatrix Z :=
  MkDenseMatrix 2 3 (λ i j, Z.of_nat (3 * i + j + 1)).

Definition sparse_store : gmap loc (SparseMatrix Z) := {[ 0 := sparse23 ]}.
Definition dense_store : gmap loc (DenseMatrix Z) := {[ 1 := dense23 ]}.

(** ** Raw traversal and the targets of calls *)

Section Raw.
Context {Element Row Col Matrix : Type}.
Context `{!Matrix.Archetype Element Row Col Matrix}.
Context `{!Matrix.Qualifiers Matrix}.
Local Open Scope op_scope.

(** [for (i = rawBegin (); i != rawEnd (); ++i)] *)
Definition raw (V : TransposeMatrix) : Op Matrix (list Element) :=
  b <- rawBegin V ;; e <- rawEnd V ;; ret (range b e).

(** The matrix a call goes to. *)
Definition target (c : mutation Element) : loc :=
  match c with
  | CallSetEntry V _ _ _ => _A V
  | CallEraseEntry V _ _ => _A V
  end.

(** *** Further expectations on the wrapped matrix *)

(** Setting one entry leaves the others as they were. *)
Definition set_keeps_others : Prop :=
  ∀ (A : Matrix) (i j i' j' : nat) (v x : Element),
    (i', j') ≠ (i, j) →
    Matrix.getEntry (Matrix.setEntry A i j v) x i' j' = Matrix.getEntry A x i' j'.

(** There are [coldim ()] column vectors and [rowdim ()] row vectors. *)
Definition col_count : Prop :=
  ∀ A : Matrix, length (range (Matrix.colBegin A) (Matrix.colEnd A)) = Matrix.coldim A.
Definition row_count : Prop :=
  ∀ A : Matrix, length (range (Matrix.rowBegin A) (Matrix.rowEnd A)) = Matrix.rowdim A.

(** The vectors show the entries [getEntry] finds; [at_col] and [at_row]
    read one coordinate of a vector. *)
Definition cols_agree (at_col : Col → nat → option Element) : Prop :=
  ∀ (A : Matrix) (j i : nat) (c : Col) (v x : Element),
    range (Matrix.colBegin A) (Matrix.colEnd A) !! j = Some c →
    at_col c i = Some v →
    Matrix.getEntry A x i j = (true, v).
Definition rows_agree (at_row : Row → nat → option Element) : Prop :=
  ∀ (A : Matrix) (i j : nat) (r : Row) (v x : Element),
    range (Matrix.rowBegin A) (Matrix.rowEnd A) !! i = Some r →
    at_row r j = Some v →
    Matrix.getEntry A x i j = (true, v).
End Raw.

Arguments set_keeps_others {_ _ _} Matrix {_}.
Arguments col_count {_ _ _} Matrix {_}.
Arguments row_count {_ _ _} Matrix {_}.
Arguments cols_agree {_ _ _} Matrix {_} at_col.
Arguments rows_agree {_ _ _} Matrix {_} at_row.

(** ** Views of views

    [TransposeMatrix<TransposeMatrix<...>, Trait>]: the template argument
    [Matrix] is itself a class of views.  A view has no state but its
    reference, so the object an outer view refers to is given by the inner
    view itself. *)
Inductive operand : Set :=
| Wrapped (A : loc)                      (* a matrix of the store *)
| Transposed (t : Trait) (M : operand).  (* a view, of class body [t], of [M] *)

Fixpoint base (M : operand) : loc :=
  match M with
  | Wrapped A => A
  | Transposed _ M' => base M'
  end.

Fixpoint depth (M : operand) : nat :=
  match M with
  | Wrapped _ => 0
  | Transposed _ M' => S (depth M')
  end.

Fixpoint traits (M : operand) : list Trait :=
  match M with
  | Wrapped _ => []
  | Transposed t M' => t :: traits M'
  end.

(** The typedefs of a class body come in two kinds: [RowIterator],
    [ConstRowIterator] and [Row], and [ColIterator], [ConstColIterator] and
    [Col]. *)
Inductive vector_kind : Set := RowKind | ColKind.

(** The kinds a class body defines. *)
Definition defines_types (t : Trait) (k : vector_kind) : bool :=
  match t, k with
  | RowMatrixTag, RowKind => false
  | ColMatrixTag, ColKind => false
  | _, _ => true
  end.

(** The kinds of [Matrix] that the typedefs of a class body name:
    [typename Matrix::RowIterator] and so on. *)
Definition names_types (t : Trait) (k : vector_kind) : bool :=
  match t, k with
  | RowMatrixTag, ColKind => false
  | ColMatrixTag, RowKind => false
  | _, _ => true
  end.

(** Whether the class body [t] can be instantiated with the class of [M] as
    [Matrix]: every type of [Matrix] it names must be there.  A matrix of
    the store is taken to have the types its view names. *)
Definition fits (t : Trait) (M : operand) : bool :=
  match M with
  | Wrapped _ => true
  | Transposed t' _ =>
      implb (names_types t RowKind) (defines_types t' RowKind)
      && implb (names_types t ColKind) (defines_types t' ColKind)
  end.

Fixpoint instantiable (M : operand) : bool :=
  match M with
  | Wrapped _ => true
  | Transposed t M' => fits t M' && instantiable M'
  end.

(** The position of the store's matrix that position [p] of a view at
    depth [n] stands for. *)
Definition exchange (n : nat) (p : nat * nat) : nat * nat :=
  if Nat.even n then p else (p.2, p.1).

Module Nested.
Section Nested.
Context {Element Row Col Matrix : Type}.
Context `{!Matrix.Archetype Element Row Col Matrix}.
Context `{!Matrix.Qualifiers Matrix}.
Local Open Scope op_scope.

Definition read {B : Type} (A : loc) (f : Matrix → B) : Op Matrix B :=
  λ s, match s !! A with
       | Some A0 => ret (f A0) s
       | None => fail DanglingReference s
       end.

Definition update (A : loc) (f : Matrix → Matrix) : Op Matrix unit :=
  λ s, match s !! A with
       | Some A0 => inr ((), <[A := f A0]> s)
       | None => fail DanglingReference s
       end.

(** Entering member [m] of a view of class body [t] of [M']: the class must
    be instantiable and have the member. *)
Definition enter {B : Type} (t : Trait) (M' : operand) (m : member)
    (body : Op Matrix B) : Op Matrix B :=
  if fits t M'
  then if declares t m then body else fail (NoSuchMember m)
  else fail NoSuchType.

(** [{ return _A.coldim (); }] and [{ return _A.rowdim (); }] *)
Fixpoint rowdim (M : operand) : Op Matrix nat :=
  match M with
  | Wrapped A => read A Matrix.rowdim
  | Transposed t M' => enter t M' m_rowdim (coldim M')
  end
with coldim (M : operand) : Op Matrix nat :=
  match M with
  | Wrapped A => read A Matrix.coldim
  | Transposed t M' => enter t M' m_coldim (rowdim M')
  end.

(** [{ return _A.getEntry (x, j, i); }] *)
Fixpoint getEntry (M : operand) (x : Element) (i j : nat) : Op Matrix (bool * Element) :=
  match M with
  | Wrapped A => read A (λ A0, Matrix.getEntry A0 x i j)
  | Transposed t M' => enter t M' m_getEntry (getEntry M' x j i)
  end.

(** Whether [setEntry] of the class of [M] is a const member: that of a
    view is not. *)
Definition setEntry_is_const (M : operand) : bool :=
  match M with
  | Wrapped _ => Matrix.setEntry_const
  | Transposed _ _ => false
  end.

(** Whether [_A.setEntry (j, i, a_ij)] is accepted in class body [t] over
    [M']. *)
Definition accepts_setEntry (t : Trait) (M' : operand) : bool :=
  negb (const_ref t) || setEntry_is_const M'.

(** [{ _A.setEntry (j, i, a_ij); }] *)
Fixpoint setEntry (M : operand) (i j : nat) (a_ij : Element) : Op Matrix unit :=
  match M with
  | Wrapped A => update A (λ A0, Matrix.setEntry A0 i j a_ij)
  | Transposed t M' =>
      enter t M' m_setEntry
        (if accepts_setEntry t M' then setEntry M' j i a_ij
         else fail (NoSuchMember m_setEntry))
  end.

(** The towers through which [setEntry] can be called. *)
Fixpoint settable (M : operand) : bool :=
  match M with
  | Wrapped _ => true
  | Transposed t M' => fits t M' && accepts_setEntry t M' && settable M'
  end.

(** [{ _A.eraseEntry (j, i); }] *)
Fixpoint eraseEntry (M : operand) (i j : nat) : Op Matrix unit :=
  match M with
  | Wrapped A => update A (λ A0, Matrix.eraseEntry A0 i j)
  | Transposed t M' =>
      if declares t m_eraseEntry then eraseEntry M' j i
      else fail (NoSuchMember m_eraseEntry)
  end.
End Nested.
End Nested.

(** * Properties *)

Lemma range_begin_end {T} (l : list T) : range (begin_of l) (end_of l) = l.
Proof.
  unfold range, begin_of, end_of; simpl.
  rewrite Nat.sub_0_r. apply firstn_all.
Qed.

(** ** The laws hold of the two representations *)

Section SparseLaws.
Context {Element : Type}.

Lemma sparse_set_then_get : set_then_get (SparseMatrix Element).
Proof.
  intros A i j v x _ _. simpl.
  by rewrite lookup_insert_eq.
Qed.

Lemma sparse_absent_leaves_x : absent_leaves_x (SparseMatrix Element).
Proof.
  intros A x i j. simpl.
  by destruct (s_rep A !! (i, j)).
Qed.

Lemma sparse_indexed_positions : indexed_positions (SparseMatrix Element).
Proof.
  intros A e x. simpl. rewrite range_begin_end. unfold s_indexed.
  intros [[[i j] v] [-> Hin]]%list_elem_of_fmap. simpl.
  apply elem_of_map_to_list in Hin. by rewrite Hin.
Qed.

Lemma sparse_erase_then_get (A : SparseMatrix Element) (x : Element) (i j : nat) :
  Matrix.getEntry (Matrix.eraseEntry A i j) x i j = (false, x).
Proof. simpl. by rewrite lookup_delete_eq. Qed.
End SparseLaws.

Section DenseLaws.
Context {Element : Type}.

Lemma dense_set_then_get : set_then_get (DenseMatrix Element).
Proof.
  intros A i j v x _ _. simpl.
  by rewrite decide_True.
Qed.

Lemma dense_absent_leaves_x : absent_leaves_x (DenseMatrix Element).
Proof. intros A x i j. simpl. discriminate. Qed.

Lemma dense_indexed_positions : indexed_positions (DenseMatrix Element).
Proof.
  intros A e x. simpl. rewrite range_begin_end. unfold d_indexed.
  intros (i & He & _)%list_elem_of_bind.
  apply list_elem_of_fmap in He as (j & -> & _). done.
Qed.

Lemma dense_erase_then_get (A : DenseMatrix Element) (x : Element) (i j : nat) :
  Matrix.getEntry (Matrix.eraseEntry A i j) x i j = Matrix.getEntry A x i j.
Proof. done. Qed.
End DenseLaws.

(** ** Forwarding *)

Section Forwarding.
Context {Element Row Col Matrix : Type}.
Context `{!Matrix.Archetype Element Row Col Matrix}.
Context `{!Matrix.Qualifiers Matrix}.
Implicit Types (V : TransposeMatrix) (s : gmap loc Matrix) (A : Matrix).
Implicit Types (i j : nat) (x v : Element).

Lemma deref_live V m s A :
  declares (trait V) m = true → s !! _A V = Some A → deref V m s = inr (A, s).
Proof. intros Hd Hs. unfold deref. by rewrite Hd, Hs. Qed.

Lemma deref_absent V m s :
  declares (trait V) m = false → deref V m s = inl (NoSuchMember m).
Proof. intros Hd. unfold deref. by rewrite Hd. Qed.

Lemma declares_shared t m : shared m = true → declares t m = true.
Proof. by destruct t, m. Qed.

Lemma deref_shared V m s A :
  shared m = true → s !! _A V = Some A → deref V m s = inr (A, s).
Proof. intros Hm. apply deref_live. by apply declares_shared. Qed.

Ltac forward H :=
  unfold bind; erewrite deref_shared by (exact H || reflexivity); try done.

Lemma rowdim_forwards V s A :
  s !! _A V = Some A → rowdim V s = inr (Matrix.coldim A, s).
Proof. intros Hs. unfold rowdim. forward Hs. Qed.

Lemma coldim_forwards V s A :
  s !! _A V = Some A → coldim V s = inr (Matrix.rowdim A, s).
Proof. intros Hs. unfold coldim. forward Hs. Qed.

Lemma setEntry_forwards V s A i j v :
  setEntry_accepted (trait V) = true →
  s !! _A V = Some A →
  setEntry V i j v s = inr ((), <[_A V := Matrix.setEntry A j i v]> s).
Proof. intros Ha Hs. unfold setEntry. rewrite Ha. forward Hs. Qed.

Lemma setEntry_rejected V s i j v :
  setEntry_accepted (trait V) = false →
  setEntry V i j v s = inl (NoSuchMember m_setEntry).
Proof. intros Ha. unfold setEntry. by rewrite Ha. Qed.

Lemma eraseEntry_forwards V s A i j :
  trait V = GenericTag →
  s !! _A V = Some A →
  eraseEntry V i j s = inr ((), <[_A V := Matrix.eraseEntry A j i]> s).
Proof.
  intros Ht Hs. unfold eraseEntry, bind.
  rewrite (deref_live V m_eraseEntry s A); [done | by rewrite Ht | done].
Qed.

Lemma getEntry_live V s A x i j :
  s !! _A V = Some A →
  getEntry V x i j s = inr (Matrix.getEntry A x j i, s).
Proof. intros Hs. unfold getEntry. forward Hs. Qed.

Lemma perform_live c s s' l A :
  perform c s = inr ((), s') → s !! l = Some A → is_Some (s' !! l).
Proof.
  intros Hc Hl.
  assert (∀ V A', s' = <[_A V := A']> s → is_Some (s' !! l)) as Hins.
  { intros V A' ->. rewrite lookup_insert. case_decide; eauto. }
  destruct c as [V i j v | V i j]; simpl in Hc;
    unfold setEntry, eraseEntry, bind, deref, assign, fail in Hc;
    try (destruct (setEntry_accepted _); try discriminate);
    destruct (declares _ _); try discriminate;
    destruct (s !! _A V); try discriminate;
    injection Hc as <-; eauto.
Qed.

Lemma perform_all_live cs s s' l A :
  perform_all cs s = inr ((), s') → s !! l = Some A → is_Some (s' !! l).
Proof.
  revert s A. induction cs as [| c cs IH]; intros s A Hrun Hl.
  - injection Hrun as <-. eauto.
  - simpl in Hrun. unfold bind in Hrun.
    destruct (perform c s) as [e | [[] s1]] eqn:Hc; [discriminate |].
    destruct (perform_live c s s1 l A Hc Hl) as [A1 Hl1].
    eapply IH; eauto.
Qed.

(** C1: in each of the four class bodies, [getEntry (x, i, j)] on the view
    is [getEntry (x, j, i)] on the wrapped matrix: it returns the same
    [bool] and leaves the same value in [x] (the store is not changed).
    This holds at every pair of indices, the valid ones among them. *)
Theorem getEntry_transposed V s A x i j :
  s !! _A V = Some A →
  ∃ b x', Matrix.getEntry A x j i = (b, x') ∧
          getEntry V x i j s = inr ((b, x'), s).
Proof.
  intros Hs. rewrite (getEntry_live V s A x i j Hs).
  destruct (Matrix.getEntry A x j i) as [b x']. eauto.
Qed.

(** C2: in each of the four class bodies, and after any sequence of
    [setEntry] and [eraseEntry] calls made through any views since the view
    was bound, [rowdim ()] of the view is [coldim ()] of the matrix it
    wraps and [coldim ()] of the view is [rowdim ()] of that matrix. *)
Theorem dimensions_swapped V cs s s' A :
  s !! _A V = Some A →
  perform_all cs s = inr ((), s') →
  ∃ A', s' !! _A V = Some A' ∧
        rowdim V s' = inr (Matrix.coldim A', s') ∧
        coldim V s' = inr (Matrix.rowdim A', s').
Proof.
  intros Hs Hrun.
  destruct (perform_all_live cs s s' (_A V) A Hrun Hs) as [A' HA'].
  exists A'. split; [done |].
  split; [by apply rowdim_forwards | by apply coldim_forwards].
Qed.

(** Where the call is accepted, [setEntry (i, j, v)] on the view, at valid
    [i], [j], has the effect of [setEntry (j, i, v)] on the wrapped matrix,
    and [getEntry (x, j, i)] on the wrapped matrix then returns true with
    [x = v], the wrapped matrix being one in which an entry that was set is
    found. *)
Lemma setEntry_then_wrapped_getEntry_where_accepted V s A i j v x :
  set_then_get Matrix →
  setEntry_accepted (trait V) = true →
  s !! _A V = Some A →
  i < Matrix.coldim A → j < Matrix.rowdim A →
  ∃ s' A', setEntry V i j v s = inr ((), s') ∧
           s' = <[_A V := Matrix.setEntry A j i v]> s ∧
           s' !! _A V = Some A' ∧
           Matrix.getEntry A' x j i = (true, v).
Proof.
  intros Hlaw Ha Hs Hi Hj.
  exists (<[_A V := Matrix.setEntry A j i v]> s), (Matrix.setEntry A j i v).
  split; [by apply setEntry_forwards |].
  split; [done |].
  split; [by rewrite lookup_insert_eq |].
  by apply Hlaw.
Qed.

(** C3: the body for column-only matrices holds the wrapped matrix by
    [const Matrix &_A], unlike the three others, and calls
    [_A.setEntry (j, i, a_ij)] all the same: for a matrix whose [setEntry]
    is not a const member, [setEntry (i, j, v)] on such a view is rejected,
    the store is not changed, and [getEntry (x, j, i)] on the wrapped matrix
    gives what it gave before, not [v]. *)
Theorem setEntry_rejected_through_const_reference V s A i j v x :
  const_ref (trait V) = true →
  Matrix.setEntry_const = false →
  s !! _A V = Some A →
  setEntry V i j v s = inl (NoSuchMember m_setEntry) ∧
  (_ <- setEntry V i j v ;; getEntry V x i j)%op s = inl (NoSuchMember m_setEntry) ∧
  getEntry V x i j s = inr (Matrix.getEntry A x j i, s).
Proof.
  intros Hc Hq Hs.
  assert (setEntry_accepted (trait V) = false) as Ha.
  { unfold setEntry_accepted. by rewrite Hc, Hq. }
  split; [by apply setEntry_rejected |].
  split; [| by apply getEntry_live].
  unfold bind. by rewrite (setEntry_rejected V s i j v Ha).
Qed.

(** C7: where the class body has row iterators, the vectors met from
    [rowBegin ()] to [rowEnd ()] of the view are, one for one and in the same
    order, those met from [colBegin ()] to [colEnd ()] of the wrapped
    matrix; where it has column iterators, those met from [colBegin ()] to
    [colEnd ()] of the view are those met from [rowBegin ()] to [rowEnd ()]
    of the wrapped matrix. *)
Theorem row_iteration_is_wrapped_col_iteration V s A :
  s !! _A V = Some A →
  (declares (trait V) m_rowBegin = true →
   rowBegin V s = inr (Matrix.colBegin A, s) ∧
   rowEnd V s = inr (Matrix.colEnd A, s) ∧
   rows V s = inr (range (Matrix.colBegin A) (Matrix.colEnd A), s)) ∧
  (declares (trait V) m_colBegin = true →
   colBegin V s = inr (Matrix.rowBegin A, s) ∧
   colEnd V s = inr (Matrix.rowEnd A, s) ∧
   cols V s = inr (range (Matrix.rowBegin A) (Matrix.rowEnd A), s)).
Proof.
  intros Hs. split; intros Hd.
  - assert (declares (trait V) m_rowEnd = true) as Hd' by by destruct (trait V).
    assert (rowBegin V s = inr (Matrix.colBegin A, s)) as Hb.
    { unfold rowBegin, bind. by rewrite (deref_live V m_rowBegin s A). }
    assert (rowEnd V s = inr (Matrix.colEnd A, s)) as He.
    { unfold rowEnd, bind. by rewrite (deref_live V m_rowEnd s A). }
    repeat split; try done.
    unfold rows, bind. rewrite Hb. cbv beta iota. by rewrite He.
  - assert (declares (trait V) m_colEnd = true) as Hd' by by destruct (trait V).
    assert (colBegin V s = inr (Matrix.rowBegin A, s)) as Hb.
    { unfold colBegin, bind. by rewrite (deref_live V m_colBegin s A). }
    assert (colEnd V s = inr (Matrix.rowEnd A, s)) as He.
    { unfold colEnd, bind. by rewrite (deref_live V m_colEnd s A). }
    repeat split; try done.
    unfold cols, bind. rewrite Hb. cbv beta iota. by rewrite He.
Qed.

Lemma rawIndexedBegin_forwards V s A :
  s !! _A V = Some A → rawIndexedBegin V s = inr (Matrix.rawIndexedBegin A, s).
Proof. intros Hs. unfold rawIndexedBegin. forward Hs. Qed.

Lemma rawIndexedEnd_forwards V s A :
  s !! _A V = Some A → rawIndexedEnd V s = inr (Matrix.rawIndexedEnd A, s).
Proof. intros Hs. unfold rawIndexedEnd. forward Hs. Qed.

Lemma rawIndexed_forwards V s A :
  s !! _A V = Some A →
  rawIndexed V s =
    inr (range (Matrix.rawIndexedBegin A) (Matrix.rawIndexedEnd A), s).
Proof.
  intros Hs. unfold rawIndexed, bind.
  rewrite (rawIndexedBegin_forwards V s A Hs). cbv beta iota.
  by rewrite (rawIndexedEnd_forwards V s A Hs).
Qed.

(** C8: in each of the four class bodies, the raw indexed traversal of the
    view is the raw indexed traversal of the wrapped matrix, entry for
    entry, with the same [rowIndex ()] and [colIndex ()].  These are
    positions of the wrapped matrix: where the wrapped matrix finds each
    entry at the position its indexed iterator shows, [rowIndex ()] and
    [colIndex ()] of an element met through the view give the position
    ([rowIndex], [colIndex]) of the entry in the wrapped matrix, which is
    position ([colIndex], [rowIndex]) of the view. *)
Theorem rawIndexed_in_wrapped_frame V s A :
  s !! _A V = Some A →
  rawIndexed V s =
    inr (range (Matrix.rawIndexedBegin A) (Matrix.rawIndexedEnd A), s) ∧
  (indexed_positions Matrix →
   ∀ l s', rawIndexed V s = inr (l, s') →
   ∀ e x, e ∈ l →
     Matrix.getEntry A x (rowIndex e) (colIndex e) = (true, entry e) ∧
     getEntry V x (colIndex e) (rowIndex e) s = inr ((true, entry e), s)).
Proof.
  intros Hs. split; [by apply rawIndexed_forwards |].
  intros Hlaw l s' Hl e x He.
  rewrite (rawIndexed_forwards V s A Hs) in Hl. injection Hl as <- <-.
  rewrite (getEntry_live V s A x _ _ Hs).
  by rewrite (Hlaw A e x He).
Qed.

(** C9: in each of the four class bodies, [getEntry] on the view of a live
    matrix returns normally (absence is no error of the view), and when it
    returns false the content of [x] after the call is its content before
    the call, the wrapped matrix being one whose [getEntry] leaves [x]
    alone when it returns false. *)
Theorem getEntry_false_leaves_x V s A x i j :
  absent_leaves_x Matrix →
  s !! _A V = Some A →
  ∃ b x', getEntry V x i j s = inr ((b, x'), s) ∧ (b = false → x' = x).
Proof.
  intros Hlaw Hs.
  exists (Matrix.getEntry A x j i).1, (Matrix.getEntry A x j i).2.
  split.
  - rewrite (getEntry_live V s A x i j Hs). by destruct (Matrix.getEntry A x j i).
  - apply Hlaw.
Qed.

(** C10: a copy [C] of a view [V] refers to the matrix [V] refers to:
    [getEntry (x, i, j)] gives the same through [C] as through [V];
    [setEntry] through [C] is accepted exactly when it is through [V], and
    once [setEntry (i, j, v)] has been performed through [C], at valid [i],
    [j], the entry is read as [v] at (i, j) through [V] and at (j, i) in
    the wrapped matrix itself, the wrapped matrix being one in which an
    entry that was set is found. *)
Theorem copy_shares_wrapped_matrix V s A i j v x :
  set_then_get Matrix →
  s !! _A V = Some A →
  i < Matrix.coldim A → j < Matrix.rowdim A →
  _A (copy V) = _A V ∧
  getEntry (copy V) x i j s = inr (Matrix.getEntry A x j i, s) ∧
  getEntry V x i j s = inr (Matrix.getEntry A x j i, s) ∧
  setEntry (copy V) i j v s = setEntry V i j v s ∧
  (setEntry_accepted (trait V) = true →
   ∃ s' A', setEntry (copy V) i j v s = inr ((), s') ∧
            getEntry V x i j s' = inr ((true, v), s') ∧
            s' !! _A V = Some A' ∧
            Matrix.getEntry A' x j i = (true, v)) ∧
  (∀ s', setEntry (copy V) i j v s = inr ((), s') →
         getEntry V x i j s' = inr ((true, v), s') ∧
         ∃ A', s' !! _A V = Some A' ∧ Matrix.getEntry A' x j i = (true, v)).
Proof.
  intros Hlaw Hs Hi Hj.
  split; [done |].
  split; [by apply getEntry_live |].
  split; [by apply getEntry_live |].
  split; [done |].
  pose proof (Hlaw A j i v x Hj Hi) as Hget.
  assert ((<[_A V := Matrix.setEntry A j i v]> s) !! _A V
          = Some (Matrix.setEntry A j i v)) as HA' by by rewrite lookup_insert_eq.
  assert (getEntry V x i j (<[_A V := Matrix.setEntry A j i v]> s)
          = inr ((true, v), <[_A V := Matrix.setEntry A j i v]> s)) as Hread.
  { rewrite (getEntry_live V _ _ x i j HA'). by rewrite Hget. }
  split.
  - intros Ha.
    exists (<[_A V := Matrix.setEntry A j i v]> s), (Matrix.setEntry A j i v).
    split; [by apply (setEntry_forwards (copy V)) |]. done.
  - intros s' Hset.
    destruct (setEntry_accepted (trait V)) eqn:Ha.
    + rewrite (setEntry_forwards (copy V) s A i j v Ha Hs) in Hset.
      injection Hset as <-. split; [done |]. eauto.
    + by rewrite (setEntry_rejected (copy V) s i j v Ha) in Hset.
Qed.

(** In the primary template, [eraseEntry (i, j)] on the view is
    [eraseEntry (j, i)] on the wrapped matrix, and a following
    [getEntry (x, i, j)] reads the wrapped matrix so changed. *)
Lemma eraseEntry_then_getEntry V s A x i j :
  trait V = GenericTag →
  s !! _A V = Some A →
  (_ <- eraseEntry V i j ;; getEntry V x i j)%op s =
    inr (Matrix.getEntry (Matrix.eraseEntry A j i) x j i,
         <[_A V := Matrix.eraseEntry A j i]> s).
Proof.
  intros Ht Hs. unfold bind at 1.
  rewrite (eraseEntry_forwards V s A i j Ht Hs).
  apply getEntry_live. by rewrite lookup_insert_eq.
Qed.

(** C4: the three specialisations have no [eraseEntry]: a call of it on a
    view of one of these class bodies is not a call of the wrapped matrix's
    [eraseEntry], it is rejected; only the primary template has the
    member. *)
Theorem eraseEntry_missing_from_specialisations (A : loc) i j s :
  eraseEntry (construct RowColMatrixTag A) i j s = inl (NoSuchMember m_eraseEntry) ∧
  eraseEntry (construct RowMatrixTag A) i j s = inl (NoSuchMember m_eraseEntry) ∧
  eraseEntry (construct ColMatrixTag A) i j s = inl (NoSuchMember m_eraseEntry) ∧
  declares GenericTag m_eraseEntry = true.
Proof. done. Qed.
End Forwarding.

(** On a sparse matrix under a view of the primary template, erasing
    (i, j) and then reading (i, j) returns false; on a dense one the value
    that was there is read. *)
Lemma sparse_view_erase_then_get {Element} V (s : gmap loc (SparseMatrix Element)) A x i j :
  trait V = GenericTag →
  s !! _A V = Some A →
  ∃ s', (_ <- eraseEntry V i j ;; getEntry V x i j)%op s = inr ((false, x), s').
Proof.
  intros Ht Hs. eexists.
  rewrite (eraseEntry_then_getEntry V s A x i j Ht Hs).
  by rewrite sparse_erase_then_get.
Qed.

Lemma dense_view_erase_then_get {Element} V (s : gmap loc (DenseMatrix Element)) A x i j :
  trait V = GenericTag →
  s !! _A V = Some A →
  ∃ s', (_ <- eraseEntry V i j ;; getEntry V x i j)%op s = inr ((true, d_rep A j i), s').
Proof.
  intros Ht Hs. eexists.
  by rewrite (eraseEntry_then_getEntry V s A x i j Ht Hs).
Qed.

(** ** Categories and capabilities *)

(** C5: the category a view declares is the complement of the category of
    the matrix it wraps: row-only gives column-only, column-only gives
    row-only, row-and-column gives row-and-column, and the primary template
    declares none, so an unspecified category gives an unspecified one;
    the category of the view of a view is the category of the matrix. *)
Theorem view_category_complement :
  MatrixCategory_of RowMatrixTag = Some ColMatrixTag ∧
  MatrixCategory_of ColMatrixTag = Some RowMatrixTag ∧
  MatrixCategory_of RowColMatrixTag = Some RowColMatrixTag ∧
  MatrixCategory_of GenericTag = None ∧
  view_category RowMatrixTag = ColMatrixTag ∧
  view_category ColMatrixTag = RowMatrixTag ∧
  view_category RowColMatrixTag = RowColMatrixTag ∧
  view_category GenericTag = GenericTag ∧
  ∀ c, view_category (view_category c) = c.
Proof. repeat split. by intros []. Qed.

(** C6: a class body has row iterators exactly when the matrix it is
    written for has column iterators, and column iterators exactly when
    that matrix has row iterators; the body for row-only matrices has the
    column accessors and no row accessor, the body for column-only matrices
    the row accessors and no column accessor; and every member a body has
    forwards to a member that the wrapped matrix has. *)
Theorem iteration_capabilities (t : Trait) :
  declares t m_rowBegin = wrapped_has t m_colBegin ∧
  declares t m_rowEnd = wrapped_has t m_colEnd ∧
  declares t m_colBegin = wrapped_has t m_rowBegin ∧
  declares t m_colEnd = wrapped_has t m_rowEnd ∧
  (∀ m, declares RowMatrixTag m = true → m ≠ m_rowBegin ∧ m ≠ m_rowEnd) ∧
  declares RowMatrixTag m_colBegin = true ∧
  declares RowMatrixTag m_colEnd = true ∧
  (∀ m, declares ColMatrixTag m = true → m ≠ m_colBegin ∧ m ≠ m_colEnd) ∧
  declares ColMatrixTag m_rowBegin = true ∧
  declares ColMatrixTag m_rowEnd = true ∧
  (∀ m, declares t m = true → wrapped_has t (forwards_to m) = true).
Proof.
  repeat split; try (by destruct t); try (by intros ->);
    by destruct t, m.
Qed.

(** ** The scenario, worked through the theorems *)

Example scenario_dimensions :
  rowdim (construct RowMatrixTag 0) sparse_store = inr (3, sparse_store) ∧
  coldim (construct RowMatrixTag 0) sparse_store = inr (2, sparse_store).
Proof. split; reflexivity. Qed.

Example scenario_getEntry_absent :
  getEntry (construct RowMatrixTag 0) 7%Z 0 1 sparse_store
  = inr ((false, 7%Z), sparse_store).
Proof. reflexivity. Qed.

(** The element (1, 2, 5) of the indexed traversal of the view is not at
    position (1, 2) of the view. *)
Example rawIndexed_not_in_view_frame :
  rawIndexed (construct GenericTag 0) sparse_store
  = inr ([MkIndexedEntry 0 0 1%Z; MkIndexedEntry 1 2 5%Z], sparse_store) ∧
  getEntry (construct GenericTag 0) 0%Z 1 2 sparse_store
  = inr ((false, 0%Z), sparse_store) ∧
  getEntry (construct GenericTag 0) 0%Z 2 1 sparse_store
  = inr ((true, 5%Z), sparse_store).
Proof. repeat split; reflexivity. Qed.

(** Erasing through a view of a specialisation is rejected, and the entry
    stays in the wrapped matrix. *)
Example scenario_eraseEntry_rejected :
  (_ <- eraseEntry (construct RowColMatrixTag 0) 2 1 ;;
   getEntry (construct RowColMatrixTag 0) 0%Z 2 1)%op sparse_store
  = inl (NoSuchMember m_eraseEntry) ∧
  getEntry (construct RowColMatrixTag 0) 0%Z 2 1 sparse_store
  = inr ((true, 5%Z), sparse_store).
Proof. split; reflexivity. Qed.

Example scenario_eraseEntry_primary :
  (∃ s', (_ <- eraseEntry (construct GenericTag 0) 2 1 ;;
          getEntry (construct GenericTag 0) 0%Z 2 1)%op sparse_store
         = inr ((false, 0%Z), s')) ∧
  (∃ s', (_ <- eraseEntry (construct GenericTag 1) 2 1 ;;
          getEntry (construct GenericTag 1) 0%Z 2 1)%op dense_store
         = inr ((true, 6%Z), s')).
Proof.
  split.
  - exact (sparse_view_erase_then_get (construct GenericTag 0) sparse_store
             sparse23 0%Z 2 1 eq_refl eq_refl).
  - exact (dense_view_erase_then_get (construct GenericTag 1) dense_store
             dense23 0%Z 2 1 eq_refl eq_refl).
Qed.

Lemma getEntry_transposed_witness :
  sparse_store !! _A (construct ColMatrixTag 0) = Some sparse23 ∧
  ∃ b x', Matrix.getEntry sparse23 0%Z 1 2 = (b, x') ∧
          getEntry (construct ColMatrixTag 0) 0%Z 2 1 sparse_store
          = inr ((b, x'), sparse_store).
Proof.
  split; [reflexivity |].
  apply (getEntry_transposed (construct ColMatrixTag 0) sparse_store sparse23 0%Z 2 1).
  reflexivity.
Defined.

Lemma dimensions_swapped_witness :
  ∃ A', (<[0 := Matrix.setEntry sparse23 1 0 9%Z]> sparse_store) !! 0 = Some A' ∧
        rowdim (construct RowColMatrixTag 0)
               (<[0 := Matrix.setEntry sparse23 1 0 9%Z]> sparse_store)
        = inr (Matrix.coldim A', <[0 := Matrix.setEntry sparse23 1 0 9%Z]> sparse_store) ∧
        coldim (construct RowColMatrixTag 0)
               (<[0 := Matrix.setEntry sparse23 1 0 9%Z]> sparse_store)
        = inr (Matrix.rowdim A', <[0 := Matrix.setEntry sparse23 1 0 9%Z]> sparse_store).
Proof.
  apply (dimensions_swapped (construct RowColMatrixTag 0)
           [CallSetEntry (construct RowMatrixTag 0) 0 1 9%Z]
           sparse_store _ sparse23).
  - reflexivity.
  - reflexivity.
Defined.

(** In the three bodies that hold [Matrix &_A] the scenario's write goes
    through. *)
Example scenario_setEntry_accepted :
  ∃ s' A', setEntry (construct RowMatrixTag 0) 0 1 9%Z sparse_store = inr ((), s') ∧
           s' = <[0 := Matrix.setEntry sparse23 1 0 9%Z]> sparse_store ∧
           s' !! 0 = Some A' ∧
           Matrix.getEntry A' 0%Z 1 0 = (true, 9%Z).
Proof.
  apply (setEntry_then_wrapped_getEntry_where_accepted (construct RowMatrixTag 0)
           sparse_store sparse23 0 1 9%Z 0%Z).
  - apply sparse_set_then_get.
  - reflexivity.
  - reflexivity.
  - simpl. lia.
  - simpl. lia.
Qed.

Lemma setEntry_rejected_through_const_reference_witness :
  setEntry (construct ColMatrixTag 0) 0 1 9%Z sparse_store
  = inl (NoSuchMember m_setEntry) ∧
  (_ <- setEntry (construct ColMatrixTag 0) 0 1 9%Z ;;
   getEntry (construct ColMatrixTag 0) 0%Z 0 1)%op sparse_store
  = inl (NoSuchMember m_setEntry) ∧
  getEntry (construct ColMatrixTag 0) 0%Z 0 1 sparse_store
  = inr ((false, 0%Z), sparse_store).
Proof.
  exact (setEntry_rejected_through_const_reference (construct ColMatrixTag 0)
           sparse_store sparse23 0 1 9%Z 0%Z eq_refl eq_refl eq_refl).
Defined.

Lemma row_iteration_is_wrapped_col_iteration_witness :
  rows (construct GenericTag 0) sparse_store
  = inr ([[(0, 1%Z)]; []; [(1, 5%Z)]], sparse_store) ∧
  cols (construct GenericTag 0) sparse_store
  = inr ([[(0, 1%Z)]; [(2, 5%Z)]], sparse_store).
Proof.
  pose proof (row_iteration_is_wrapped_col_iteration
                (construct GenericTag 0) sparse_store sparse23 eq_refl)
    as [Hrows Hcols].
  split.
  - apply (Hrows eq_refl).
  - apply (Hcols eq_refl).
Defined.

Lemma rawIndexed_in_wrapped_frame_witness :
  Matrix.getEntry sparse23 0%Z 1 2 = (true, 5%Z) ∧
  getEntry (construct RowMatrixTag 0) 0%Z 2 1 sparse_store
  = inr ((true, 5%Z), sparse_store).
Proof.
  pose proof (rawIndexed_in_wrapped_frame
                (construct RowMatrixTag 0) sparse_store sparse23 eq_refl)
    as [_ Hframe].
  apply (Hframe sparse_indexed_positions
           [MkIndexedEntry 0 0 1%Z; MkIndexedEntry 1 2 5%Z] sparse_store eq_refl
           (MkIndexedEntry 1 2 5%Z) 0%Z).
  apply list_elem_of_further, list_elem_of_here.
Defined.

Lemma getEntry_false_leaves_x_witness :
  ∃ b x', getEntry (construct RowColMatrixTag 0) 7%Z 0 1 sparse_store
          = inr ((b, x'), sparse_store) ∧ (b = false → x' = 7%Z).
Proof.
  apply (getEntry_false_leaves_x (construct RowColMatrixTag 0) sparse_store sparse23).
  - apply sparse_absent_leaves_x.
  - reflexivity.
Defined.

Lemma copy_shares_wrapped_matrix_witness :
  _A (copy (construct GenericTag 0)) = 0 ∧
  getEntry (copy (construct GenericTag 0)) 0%Z 0 1 sparse_store
  = inr ((false, 0%Z), sparse_store) ∧
  getEntry (construct GenericTag 0) 0%Z 0 1 sparse_store
  = inr ((false, 0%Z), sparse_store) ∧
  ∃ s' A', setEntry (copy (construct GenericTag 0)) 0 1 9%Z sparse_store = inr ((), s') ∧
           getEntry (construct GenericTag 0) 0%Z 0 1 s' = inr ((true, 9%Z), s') ∧
           s' !! 0 = Some A' ∧
           Matrix.getEntry A' 0%Z 1 0 = (true, 9%Z).
Proof.
  assert (0 < Matrix.coldim sparse23) as Hi by (simpl; lia).
  assert (1 < Matrix.rowdim sparse23) as Hj by (simpl; lia).
  pose proof (copy_shares_wrapped_matrix (construct GenericTag 0)
                sparse_store sparse23 0 1 9%Z 0%Z sparse_set_then_get eq_refl Hi Hj)
    as (HA & Hc & Hv & _ & Hset & _).
  split; [exact HA |]. split; [exact Hc |]. split; [exact Hv |].
  exact (Hset eq_refl).
Defined.

Lemma iteration_capabilities_witness :
  declares RowMatrixTag m_colBegin = true ∧
  wrapped_has RowMatrixTag (forwards_to m_colBegin) = true.
Proof.
  split; [reflexivity |].
  apply (iteration_capabilities RowMatrixTag).
  reflexivity.
Defined.

(** * Further properties of the class bodies *)

Section MoreLaws.
Context {Element : Type}.

Lemma sparse_set_keeps_others : set_keeps_others (SparseMatrix Element).
Proof.
  intros A i j i' j' v x Hne. simpl.
  by rewrite lookup_insert_ne.
Qed.

Lemma sparse_col_count : col_count (SparseMatrix Element).
Proof.
  intros A. simpl. rewrite range_begin_end. unfold s_cols.
  by rewrite length_fmap, length_seq.
Qed.

Lemma sparse_row_count : row_count (SparseMatrix Element).
Proof.
  intros A. simpl. rewrite range_begin_end. unfold s_rows.
  by rewrite length_fmap, length_seq.
Qed.

Lemma dense_set_keeps_others : set_keeps_others (DenseMatrix Element).
Proof.
  intros A i j i' j' v x Hne. simpl.
  rewrite decide_False; [done |]. intros [-> ->]. by apply Hne.
Qed.

Lemma dense_col_count : col_count (DenseMatrix Element).
Proof.
  intros A. simpl. rewrite range_begin_end. unfold d_cols.
  by rewrite length_fmap, length_seq.
Qed.

Lemma dense_row_count : row_count (DenseMatrix Element).
Proof.
  intros A. simpl. rewrite range_begin_end. unfold d_rows.
  by rewrite length_fmap, length_seq.
Qed.

Lemma dense_cols_agree : cols_agree (DenseMatrix Element) (λ c i, c !! i).
Proof.
  intros A j i c v x. simpl. rewrite range_begin_end. unfold d_cols.
  rewrite list_lookup_fmap.
  destruct (seq 0 (d_coldim A) !! j) as [j' |] eqn:Hj; [| discriminate].
  apply lookup_seq in Hj as [-> _]. simpl. intros [= <-].
  rewrite list_lookup_fmap.
  destruct (seq 0 (d_rowdim A) !! i) as [i' |] eqn:Hi; [| discriminate].
  apply lookup_seq in Hi as [-> _]. simpl. by intros [= <-].
Qed.

Lemma dense_rows_agree : rows_agree (DenseMatrix Element) (λ r j, r !! j).
Proof.
  intros A i j r v x. simpl. rewrite range_begin_end. unfold d_rows.
  rewrite list_lookup_fmap.
  destruct (seq 0 (d_rowdim A) !! i) as [i' |] eqn:Hi; [| discriminate].
  apply lookup_seq in Hi as [-> _]. simpl. intros [= <-].
  rewrite list_lookup_fmap.
  destruct (seq 0 (d_coldim A) !! j) as [j' |] eqn:Hj; [| discriminate].
  apply lookup_seq in Hj as [-> _]. simpl. by intros [= <-].
Qed.
End MoreLaws.

Section Views.
Context {Element Row Col Matrix : Type}.
Context `{!Matrix.Archetype Element Row Col Matrix}.
Context `{!Matrix.Qualifiers Matrix}.
Implicit Types (V : TransposeMatrix) (s : gmap loc Matrix) (A : Matrix).
Implicit Types (i j : nat) (x v : Element).

Lemma rows_live V s A :
  declares (trait V) m_rowBegin = true →
  s !! _A V = Some A →
  rows V s = inr (range (Matrix.colBegin A) (Matrix.colEnd A), s).
Proof.
  intros Hd Hs.
  assert (declares (trait V) m_rowEnd = true) as Hd' by by destruct (trait V).
  unfold rows, rowBegin, rowEnd, bind.
  rewrite (deref_live V m_rowBegin s A Hd Hs). cbv beta iota. unfold ret at 1.
  by rewrite (deref_live V m_rowEnd s A Hd' Hs).
Qed.

Lemma cols_live V s A :
  declares (trait V) m_colBegin = true →
  s !! _A V = Some A →
  cols V s = inr (range (Matrix.rowBegin A) (Matrix.rowEnd A), s).
Proof.
  intros Hd Hs.
  assert (declares (trait V) m_colEnd = true) as Hd' by by destruct (trait V).
  unfold cols, colBegin, colEnd, bind.
  rewrite (deref_live V m_colBegin s A Hd Hs). cbv beta iota. unfold ret at 1.
  by rewrite (deref_live V m_colEnd s A Hd' Hs).
Qed.

Lemma rows_declared V s l s' :
  rows V s = inr (l, s') → declares (trait V) m_rowBegin = true.
Proof.
  unfold rows, rowBegin, bind, deref.
  by destruct (declares (trait V) m_rowBegin).
Qed.

Lemma cols_declared V s l s' :
  cols V s = inr (l, s') → declares (trait V) m_colBegin = true.
Proof.
  unfold cols, colBegin, bind, deref.
  by destruct (declares (trait V) m_colBegin).
Qed.

Lemma raw_live V s A :
  s !! _A V = Some A →
  raw V s = inr (range (Matrix.rawBegin A) (Matrix.rawEnd A), s).
Proof.
  intros Hs. unfold raw, rawBegin, rawEnd, bind.
  rewrite (deref_live V m_rawBegin s A); [| by destruct (trait V) | done].
  cbv beta iota. unfold ret at 1.
  by rewrite (deref_live V m_rawEnd s A); [| by destruct (trait V) | done].
Qed.

(** X1: in each of the four class bodies, the entries met from
    [rawBegin ()] to [rawEnd ()] of the view are those met from
    [rawBegin ()] to [rawEnd ()] of the wrapped matrix, in the same order;
    so every view of one matrix, whatever its class body, shows the same
    raw traversal. *)
Theorem raw_traversal_unchanged V s A :
  s !! _A V = Some A →
  raw V s = inr (range (Matrix.rawBegin A) (Matrix.rawEnd A), s) ∧
  ∀ V', _A V' = _A V → raw V' s = raw V s.
Proof.
  intros Hs. split; [by apply raw_live |].
  intros V' HV'. rewrite (raw_live V s A Hs).
  apply raw_live. by rewrite HV'.
Qed.

Lemma perform_frame (c : mutation Element) s s' (l : loc) :
  perform c s = inr ((), s') → l ≠ target c → s' !! l = s !! l.
Proof.
  intros Hc Hl.
  destruct c as [V i j v | V i j]; simpl in Hc, Hl;
    unfold setEntry, eraseEntry, bind, deref, assign, ret, fail in Hc;
    try (destruct (setEntry_accepted _); try discriminate);
    destruct (declares _ _); try discriminate;
    destruct (s !! _A V); try discriminate;
    injection Hc as <-; by rewrite lookup_insert_ne.
Qed.

(** X2: [setEntry] and [eraseEntry] through views change the matrices the
    views refer to and nothing else: after any sequence of such calls, a
    matrix no call went to is as it was. *)
Theorem calls_change_only_their_target (cs : list (mutation Element)) s s' (l : loc) :
  perform_all cs s = inr ((), s') →
  l ∉ target <$> cs →
  s' !! l = s !! l.
Proof.
  revert s. induction cs as [| c cs IH]; intros s Hrun Hl.
  - by injection Hrun as <-.
  - simpl in Hrun. unfold bind in Hrun.
    destruct (perform c s) as [e | [[] s1]] eqn:Hc; [discriminate |].
    rewrite fmap_cons in Hl. apply not_elem_of_cons in Hl as [Hl1 Hl2].
    rewrite (IH s1 Hrun Hl2).
    by apply (perform_frame c).
Qed.

(** X3: where the call is accepted (through [Matrix &_A], or through
    [const Matrix &_A] for a const [setEntry]), after [setEntry (i, j, v)]
    through a view, [getEntry] through the view at any other position
    (i', j') gives what the wrapped matrix gave at (j', i') before the call,
    the wrapped matrix being one in which setting an entry leaves the
    others as they were. *)
Theorem setEntry_keeps_other_entries V s A i j i' j' v x :
  set_keeps_others Matrix →
  setEntry_accepted (trait V) = true →
  s !! _A V = Some A →
  (i', j') ≠ (i, j) →
  ∃ s', setEntry V i j v s = inr ((), s') ∧
        getEntry V x i' j' s' = inr (Matrix.getEntry A x j' i', s').
Proof.
  intros Hlaw Ha Hs Hne.
  exists (<[_A V := Matrix.setEntry A j i v]> s).
  split; [by apply setEntry_forwards |].
  erewrite getEntry_live by apply lookup_insert_eq.
  rewrite Hlaw; [done |]. intros [= -> ->]. by apply Hne.
Qed.

(** X4: where the class body has the iterators, the view shows as many row
    vectors as its [rowdim ()] and as many column vectors as its
    [coldim ()], the wrapped matrix being one that shows [coldim ()] column
    vectors and [rowdim ()] row vectors. *)
Theorem vector_counts_are_dimensions V s A :
  col_count Matrix → row_count Matrix →
  s !! _A V = Some A →
  (∀ l s', rows V s = inr (l, s') → rowdim V s = inr (length l, s)) ∧
  (∀ l s', cols V s = inr (l, s') → coldim V s = inr (length l, s)).
Proof.
  intros Hc Hr Hs. split; intros l s' Hl.
  - rewrite (rows_live V s A (rows_declared V s l s' Hl) Hs) in Hl.
    injection Hl as <- <-. rewrite Hc. by apply rowdim_forwards.
  - rewrite (cols_live V s A (cols_declared V s l s' Hl) Hs) in Hl.
    injection Hl as <- <-. rewrite Hr. by apply coldim_forwards.
Qed.

(** X5: the vectors of the view show the entries of the view: coordinate
    [j] of the [i]-th row vector of the view, and coordinate [i] of its
    [j]-th column vector, is what [getEntry (x, i, j)] of the view finds,
    the wrapped matrix being one whose own vectors show the entries its
    [getEntry] finds. *)
Theorem view_vectors_show_view_entries
    (at_col : Col → nat → option Element) (at_row : Row → nat → option Element)
    V s A :
  cols_agree Matrix at_col → rows_agree Matrix at_row →
  s !! _A V = Some A →
  (∀ l s' i j r v x,
     rows V s = inr (l, s') → l !! i = Some r → at_col r j = Some v →
     getEntry V x i j s = inr ((true, v), s)) ∧
  (∀ l s' i j c v x,
     cols V s = inr (l, s') → l !! j = Some c → at_row c i = Some v →
     getEntry V x i j s = inr ((true, v), s)).
Proof.
  intros Hc Hr Hs. split.
  - intros l s' i j r v x Hl Hi Hj.
    rewrite (rows_live V s A (rows_declared V s l s' Hl) Hs) in Hl.
    injection Hl as <- <-.
    rewrite (getEntry_live V s A x i j Hs).
    by rewrite (Hc A i j r v x Hi Hj).
  - intros l s' i j c v x Hl Hj Hi.
    rewrite (cols_live V s A (cols_declared V s l s' Hl) Hs) in Hl.
    injection Hl as <- <-.
    rewrite (getEntry_live V s A x i j Hs).
    by rewrite (Hr A j i c v x Hj Hi).
Qed.

(** X6: in the primary template, [eraseEntry (i, j)] on the view has the
    effect of [eraseEntry (j, i)] on the wrapped matrix, on that matrix
    alone, and [getEntry (x, i, j)] on the view then gives what the wrapped
    matrix, so changed, gives at (j, i). *)
Theorem primary_eraseEntry_transposed V s A x i j :
  trait V = GenericTag →
  s !! _A V = Some A →
  ∃ s', eraseEntry V i j s = inr ((), s') ∧
        s' = <[_A V := Matrix.eraseEntry A j i]> s ∧
        (∀ l, l ≠ _A V → s' !! l = s !! l) ∧
        getEntry V x i j s' = inr (Matrix.getEntry (Matrix.eraseEntry A j i) x j i, s').
Proof.
  intros Ht Hs. eexists. split; [by apply eraseEntry_forwards |].
  split; [done |]. split.
  - intros l Hl. by rewrite lookup_insert_ne.
  - apply getEntry_live. by rewrite lookup_insert_eq.
Qed.
End Views.

(** ** Views of views *)

Lemma exchange_succ (n : nat) (i j : nat) :
  exchange (S n) (i, j) = exchange n (j, i).
Proof.
  unfold exchange. rewrite Nat.even_succ, <- Nat.negb_even.
  by destruct (Nat.even n).
Qed.

Section NestedViews.
Context {Element Row Col Matrix : Type}.
Context `{!Matrix.Archetype Element Row Col Matrix}.
Context `{!Matrix.Qualifiers Matrix}.
Implicit Types (M : operand) (s : gmap loc Matrix) (A : Matrix).
Implicit Types (i j : nat) (x v : Element).

(** A view of a matrix of the store is the view of the class template. *)
Lemma nested_one_level (t : Trait) (l : loc) s x v i j :
  Nested.rowdim (Transposed t (Wrapped l)) s = rowdim (MkTransposeMatrix t l) s ∧
  Nested.coldim (Transposed t (Wrapped l)) s = coldim (MkTransposeMatrix t l) s ∧
  Nested.getEntry (Transposed t (Wrapped l)) x i j s
    = getEntry (MkTransposeMatrix t l) x i j s ∧
  Nested.setEntry (Transposed t (Wrapped l)) i j v s
    = setEntry (MkTransposeMatrix t l) i j v s ∧
  Nested.eraseEntry (Transposed t (Wrapped l)) i j s
    = eraseEntry (MkTransposeMatrix t l) i j s.
Proof.
  repeat split; simpl;
    unfold rowdim, coldim, getEntry, setEntry, eraseEntry, bind, deref,
      assign, Nested.enter, Nested.read, Nested.update, ret, fail,
      setEntry_accepted, Nested.accepts_setEntry; simpl;
    destruct t; simpl; try (by destruct (s !! l));
    destruct Matrix.setEntry_const; simpl; by destruct (s !! l).
Qed.

Lemma nested_dims M s A :
  s !! base M = Some A →
  Nested.rowdim M s
    = (if instantiable M
       then inr (if Nat.even (depth M) then Matrix.rowdim A else Matrix.coldim A, s)
       else inl NoSuchType) ∧
  Nested.coldim M s
    = (if instantiable M
       then inr (if Nat.even (depth M) then Matrix.coldim A else Matrix.rowdim A, s)
       else inl NoSuchType).
Proof.
  induction M as [l | t M IH]; intros Hs.
  - simpl in *. unfold Nested.read. by rewrite Hs.
  - simpl base in Hs. destruct (IH Hs) as [IHr IHc].
    simpl Nested.rowdim. simpl Nested.coldim. simpl depth. simpl instantiable.
    unfold Nested.enter.
    assert (declares t m_rowdim = true) as -> by by destruct t.
    assert (declares t m_coldim = true) as -> by by destruct t.
    destruct (fits t M); [| done]. rewrite andb_true_l.
    rewrite IHr, IHc, Nat.even_succ, <- Nat.negb_even.
    by destruct (Nat.even (depth M)).
Qed.

Lemma nested_getEntry M s A x i j :
  s !! base M = Some A →
  Nested.getEntry M x i j s
    = if instantiable M
      then inr (Matrix.getEntry A x (exchange (depth M) (i, j)).1
                                    (exchange (depth M) (i, j)).2, s)
      else inl NoSuchType.
Proof.
  revert i j. induction M as [l | t M IH]; intros i j Hs.
  - simpl in *. unfold Nested.read. by rewrite Hs.
  - simpl base in Hs. simpl Nested.getEntry. simpl depth. simpl instantiable.
    unfold Nested.enter.
    assert (declares t m_getEntry = true) as -> by by destruct t.
    destruct (fits t M); [| done]. rewrite andb_true_l.
    rewrite exchange_succ. by apply IH.
Qed.

Lemma instantiable_twice t1 t2 M0 :
  instantiable (Transposed t2 (Transposed t1 M0)) = true →
  fits t2 (Transposed t1 M0) = true ∧ fits t1 M0 = true.
Proof.
  simpl instantiable. intros Hi.
  apply andb_true_iff in Hi as [H2 Hi].
  apply andb_true_iff in Hi as [H1 _]. done.
Qed.

(** X7: a class of views over a class of views can be instantiated when
    the inner class body defines the types the outer one names; through a
    tower of views that can be instantiated, over a live matrix,
    [getEntry (x, i, j)] is [getEntry] of that matrix at (i, j) when the
    number of views is even and at (j, i) when it is odd, and [rowdim ()],
    [coldim ()] are the matrix's own when that number is even and
    exchanged when it is odd, so that the view of a view reads as what it
    is a view of a view of; a tower that cannot be instantiated is
    rejected. *)
Theorem nested_views_read M s A x i j :
  s !! base M = Some A →
  Nested.getEntry M x i j s
    = (if instantiable M
       then inr (Matrix.getEntry A x (exchange (depth M) (i, j)).1
                                     (exchange (depth M) (i, j)).2, s)
       else inl NoSuchType) ∧
  Nested.rowdim M s
    = (if instantiable M
       then inr (if Nat.even (depth M) then Matrix.rowdim A else Matrix.coldim A, s)
       else inl NoSuchType) ∧
  Nested.coldim M s
    = (if instantiable M
       then inr (if Nat.even (depth M) then Matrix.coldim A else Matrix.rowdim A, s)
       else inl NoSuchType) ∧
  ∀ t1 t2 M0, M = Transposed t2 (Transposed t1 M0) →
    instantiable M = true →
    Nested.getEntry M x i j s = Nested.getEntry M0 x i j s ∧
    Nested.rowdim M s = Nested.rowdim M0 s ∧
    Nested.coldim M s = Nested.coldim M0 s.
Proof.
  intros Hs.
  split; [by apply nested_getEntry |].
  destruct (nested_dims M s A Hs) as [Hr Hc].
  do 2 (split; [done |]).
  intros t1 t2 M0 -> Hi.
  destruct (instantiable_twice t1 t2 M0 Hi) as [H2 H1].
  simpl. unfold Nested.enter. rewrite H2, H1.
  by destruct t1, t2.
Qed.

(** X8: through a tower of views over a live matrix, [setEntry (i, j, v)]
    sets that matrix's entry at (i, j) or (j, i), by the parity of the
    number of views, and changes nothing else, when every class of the
    tower can be instantiated and every call [_A.setEntry (j, i, a_ij)] on
    the way is accepted: one through [Matrix &_A] always is, one through
    the [const Matrix &_A] of the body for column-only matrices only on a
    matrix whose [setEntry] is a const member, and never on a view.
    Otherwise the call is rejected. *)
Theorem nested_views_setEntry M s A i j v :
  s !! base M = Some A →
  (Nested.settable M = true →
   Nested.setEntry M i j v s
   = inr ((), <[base M := Matrix.setEntry A (exchange (depth M) (i, j)).1
                                            (exchange (depth M) (i, j)).2 v]> s)) ∧
  (Nested.settable M = false →
   Nested.setEntry M i j v s = inl NoSuchType ∨
   Nested.setEntry M i j v s = inl (NoSuchMember m_setEntry)).
Proof.
  revert i j. induction M as [l | t M IH]; intros i j Hs.
  - simpl in *. unfold Nested.update. rewrite Hs. by split.
  - simpl base in *. simpl Nested.setEntry. simpl Nested.settable. simpl depth.
    unfold Nested.enter.
    assert (declares t m_setEntry = true) as -> by by destruct t.
    destruct (fits t M); [| split; [done | by left]].
    destruct (Nested.accepts_setEntry t M); [| split; [done | by right]].
    rewrite !andb_true_l, exchange_succ. by apply IH.
Qed.

(** X9: through a tower of views over a live matrix, [eraseEntry (i, j)]
    reaches the matrix, at (i, j) or (j, i) by the parity of the number of
    views, exactly when every view of the tower is of the primary
    template; one specialisation anywhere in the tower and the call is
    rejected. *)
Theorem nested_views_eraseEntry M s A i j :
  s !! base M = Some A →
  Nested.eraseEntry M i j s
    = if forallb (λ t, bool_decide (t = GenericTag)) (traits M)
      then inr ((), <[base M := Matrix.eraseEntry A (exchange (depth M) (i, j)).1
                                                    (exchange (depth M) (i, j)).2]> s)
      else inl (NoSuchMember m_eraseEntry).
Proof.
  revert i j. induction M as [l | t M IH]; intros i j Hs.
  - simpl in *. unfold Nested.update. by rewrite Hs.
  - simpl base in *. simpl Nested.eraseEntry. simpl traits. simpl depth.
    destruct t; try done.
    simpl forallb. simpl declares. rewrite exchange_succ. by apply IH.
Qed.
End NestedViews.

(** X10: the category a specialisation declares for itself is that of a
    matrix with the iterators the specialisation has: apart from
    [eraseEntry], the members of the specialisation are those of a matrix
    of the declared category, and the class body for the declared
    category has a member exactly when the specialisation has the member
    it forwards to. *)
Theorem declared_category_mirrors_members (t : Trait) (c : MatrixCategory) :
  MatrixCategory_of t = Some c →
  (∀ m, m ≠ m_eraseEntry → declares t m = wrapped_has c m) ∧
  (∀ m, declares c m = declares t (forwards_to m)).
Proof.
  intros Ht. split.
  - intros m Hm. destruct t; simplify_eq/=; by destruct m.
  - intros m. destruct t; simplify_eq/=; by destruct m.
Qed.

(** ** The further properties on the scenario *)

(** A body for column-only matrices over a view of a row-only matrix: what
    transposing a row-only matrix twice selects.  Reading goes through,
    [setEntry] does not. *)
Example twice_transposed_row_only :
  MatrixCategory_of RowMatrixTag = Some ColMatrixTag ∧
  Nested.getEntry (Transposed ColMatrixTag (Transposed RowMatrixTag (Wrapped 0)))
    0%Z 1 2 sparse_store = inr ((true, 5%Z), sparse_store) ∧
  Nested.setEntry (Transposed ColMatrixTag (Transposed RowMatrixTag (Wrapped 0)))
    1 0 9%Z sparse_store = inl (NoSuchMember m_setEntry).
Proof. repeat split; reflexivity. Qed.

(** The primary template names [Matrix::RowIterator] and [Matrix::Row],
    which the body for row-only matrices does not define: the class of a
    primary view of such a view cannot be instantiated.  The body for
    column-only matrices over a matrix of the store rejects [setEntry], and
    so does every tower above it. *)
Example towers_rejected :
  Nested.getEntry (Transposed GenericTag (Transposed RowMatrixTag (Wrapped 0)))
    0%Z 1 2 sparse_store = inl NoSuchType ∧
  Nested.rowdim (Transposed RowMatrixTag (Transposed RowMatrixTag (Wrapped 0)))
    sparse_store = inl NoSuchType ∧
  Nested.setEntry (Transposed ColMatrixTag (Wrapped 0)) 0 1 9%Z sparse_store
  = inl (NoSuchMember m_setEntry) ∧
  Nested.setEntry (Transposed RowMatrixTag (Transposed ColMatrixTag (Wrapped 0)))
    1 0 9%Z sparse_store = inl (NoSuchMember m_setEntry).
Proof. repeat split; reflexivity. Qed.

(** The primary template over a specialisation: [eraseEntry] is rejected. *)
Example eraseEntry_over_specialisation :
  Nested.eraseEntry (Transposed GenericTag (Transposed RowColMatrixTag (Wrapped 0)))
    1 2 sparse_store = inl (NoSuchMember m_eraseEntry).
Proof. reflexivity. Qed.

Lemma raw_traversal_unchanged_witness :
  raw (construct RowMatrixTag 0) sparse_store = inr ([1%Z; 5%Z], sparse_store) ∧
  ∀ V', _A V' = 0 → raw V' sparse_store = raw (construct RowMatrixTag 0) sparse_store.
Proof.
  exact (raw_traversal_unchanged (construct RowMatrixTag 0) sparse_store sparse23 eq_refl).
Defined.

Lemma calls_change_only_their_target_witness :
  (<[0 := Matrix.eraseEntry (Matrix.setEntry sparse23 1 0 9%Z) 1 2]>
     (<[0 := Matrix.setEntry sparse23 1 0 9%Z]> (<[1 := sparse23]> sparse_store))) !! 1
  = (<[1 := sparse23]> sparse_store) !! 1.
Proof.
  apply (calls_change_only_their_target
           [CallSetEntry (construct RowMatrixTag 0) 0 1 9%Z;
            CallEraseEntry (construct GenericTag 0) 2 1]
           (<[1 := sparse23]> sparse_store)).
  - reflexivity.
  - simpl. intros Hin.
    apply elem_of_cons in Hin as [Hin | Hin]; [discriminate |].
    apply elem_of_cons in Hin as [Hin | Hin]; [discriminate |].
    by apply elem_of_nil in Hin.
Defined.

Lemma setEntry_keeps_other_entries_witness :
  ∃ s', setEntry (construct RowMatrixTag 0) 0 1 9%Z sparse_store = inr ((), s') ∧
        getEntry (construct RowMatrixTag 0) 0%Z 2 1 s' = inr ((true, 5%Z), s').
Proof.
  assert ((2, 1) ≠ (0, 1)) as Hne by discriminate.
  exact (setEntry_keeps_other_entries (construct RowMatrixTag 0) sparse_store
           sparse23 0 1 2 1 9%Z 0%Z sparse_set_keeps_others eq_refl eq_refl Hne).
Defined.

Lemma vector_counts_are_dimensions_witness :
  rowdim (construct GenericTag 0) sparse_store = inr (3, sparse_store) ∧
  coldim (construct GenericTag 0) sparse_store = inr (2, sparse_store).
Proof.
  pose proof (vector_counts_are_dimensions (construct GenericTag 0) sparse_store
                sparse23 sparse_col_count sparse_row_count eq_refl) as [Hr Hc].
  split.
  - exact (Hr [[(0, 1%Z)]; []; [(1, 5%Z)]] sparse_store eq_refl).
  - exact (Hc [[(0, 1%Z)]; [(2, 5%Z)]] sparse_store eq_refl).
Defined.

Lemma view_vectors_show_view_entries_witness :
  getEntry (construct GenericTag 1) 0%Z 2 1 dense_store
  = inr ((true, 6%Z), dense_store).
Proof.
  pose proof (view_vectors_show_view_entries (λ c i, c !! i) (λ r j, r !! j)
                (construct GenericTag 1) dense_store dense23
                dense_cols_agree dense_rows_agree eq_refl) as [Hr _].
  exact (Hr [[1%Z; 4%Z]; [2%Z; 5%Z]; [3%Z; 6%Z]] dense_store 2 1
            [3%Z; 6%Z] 6%Z 0%Z eq_refl eq_refl eq_refl).
Defined.

Lemma primary_eraseEntry_transposed_witness :
  ∃ s', eraseEntry (construct GenericTag 0) 2 1 sparse_store = inr ((), s') ∧
        s' = <[0 := Matrix.eraseEntry sparse23 1 2]> sparse_store ∧
        (∀ l, l ≠ 0 → s' !! l = sparse_store !! l) ∧
        getEntry (construct GenericTag 0) 7%Z 2 1 s' = inr ((false, 7%Z), s').
Proof.
  exact (primary_eraseEntry_transposed (construct GenericTag 0) sparse_store
           sparse23 7%Z 2 1 eq_refl eq_refl).
Defined.

Lemma nested_views_read_witness :
  Nested.getEntry (Transposed ColMatrixTag (Transposed RowMatrixTag (Wrapped 0)))
    0%Z 1 2 sparse_store = inr ((true, 5%Z), sparse_store) ∧
  Nested.rowdim (Transposed ColMatrixTag (Transposed RowMatrixTag (Wrapped 0)))
    sparse_store = inr (2, sparse_store) ∧
  Nested.coldim (Transposed ColMatrixTag (Transposed RowMatrixTag (Wrapped 0)))
    sparse_store = inr (3, sparse_store) ∧
  Nested.getEntry (Transposed ColMatrixTag (Transposed RowMatrixTag (Wrapped 0)))
    0%Z 1 2 sparse_store = Nested.getEntry (Wrapped 0) 0%Z 1 2 sparse_store.
Proof.
  pose proof (nested_views_read
                (Transposed ColMatrixTag (Transposed RowMatrixTag (Wrapped 0)))
                sparse_store sparse23 0%Z 1 2 eq_refl) as (Hg & Hr & Hc & Hd).
  split; [exact Hg |]. split; [exact Hr |]. split; [exact Hc |].
  exact (proj1 (Hd RowMatrixTag ColMatrixTag (Wrapped 0) eq_refl eq_refl)).
Defined.

Lemma nested_views_setEntry_witness :
  Nested.setEntry (Transposed GenericTag (Transposed RowColMatrixTag (Wrapped 0)))
    1 0 9%Z sparse_store
  = inr ((), <[0 := Matrix.setEntry sparse23 1 0 9%Z]> sparse_store).
Proof.
  exact (proj1 (nested_views_setEntry
                  (Transposed GenericTag (Transposed RowColMatrixTag (Wrapped 0)))
                  sparse_store sparse23 1 0 9%Z eq_refl) eq_refl).
Defined.

Lemma nested_views_eraseEntry_witness :
  Nested.eraseEntry (Transposed GenericTag (Transposed GenericTag (Wrapped 0)))
    1 2 sparse_store
  = inr ((), <[0 := Matrix.eraseEntry sparse23 1 2]> sparse_store).
Proof.
  exact (nested_views_eraseEntry
           (Transposed GenericTag (Transposed GenericTag (Wrapped 0)))
           sparse_store sparse23 1 2 eq_refl).
Defined.

Lemma declared_category_mirrors_members_witness :
  declares RowMatrixTag m_colBegin = wrapped_has ColMatrixTag m_colBegin ∧
  declares ColMatrixTag m_rowBegin = declares RowMatrixTag (forwards_to m_rowBegin).
Proof.
  pose proof (declared_category_mirrors_members RowMatrixTag ColMatrixTag eq_refl)
    as [Hm Hf].
  assert (m_colBegin ≠ m_eraseEntry) as Hne by discriminate.
  split; [exact (Hm m_colBegin Hne) | exact (Hf m_rowBegin)].
Defined.
